(** * Slash-command palette of my-happy: trigger detection, candidate
    filtering, keyboard selection and command execution.

    Sources embedded:
    - sources/hooks/useCommandDetector.ts   ([useCommandDetector])
    - sources/components/CommandPalette.tsx ([handleKeyPress])
    - docs/plans/2025-01-03-slash-commands-design.md
        ([SLASH_COMMANDS], [sessionRPC], [executeCommand], the command
         detection effect of [AgentInput]). *)

From Stdlib Require Import ZArith List Bool String Ascii Lia.
Import ListNotations.
Open Scope Z_scope.

(** ** JavaScript strings *)

(** A JS string is a sequence of UTF-16 code units. *)
Definition jsstring := list Z.

(** String literal helper: an ASCII literal as its code units. *)
Definition js (s : string) : jsstring :=
  map (fun a => Z.of_nat (nat_of_ascii a)) (list_ascii_of_string s).

(** [===] on strings: code unit by code unit. *)
Definition js_eqb (a b : jsstring) : bool :=
  if list_eq_dec Z.eq_dec a b then true else false.

(** ECMAScript WhiteSpace and LineTerminator code points (all in the BMP,
    so a code unit test is exact): TAB, VT, FF, SP, NBSP, ZWNBSP, the
    Zs category (U+1680, U+2000..U+200A, U+202F, U+205F, U+3000), LF, CR,
    LS and PS. *)
Definition is_js_ws (c : Z) : bool :=
  (c =? 9) || (c =? 11) || (c =? 12) || (c =? 32) || (c =? 160)
  || (c =? 65279) || (c =? 5760) || ((8192 <=? c) && (c <=? 8202))
  || (c =? 8239) || (c =? 8287) || (c =? 12288)
  || (c =? 10) || (c =? 13) || (c =? 8232) || (c =? 8233).

(** [String.prototype.trimStart]. *)
Fixpoint trim_start (s : jsstring) : jsstring :=
  match s with
  | [] => []
  | c :: r => if is_js_ws c then trim_start r else s
  end.

(** [String.prototype.trimEnd]. *)
Definition trim_end (s : jsstring) : jsstring := rev (trim_start (rev s)).

(** [String.prototype.trim]: leading and trailing white space removed. *)
Definition trim (s : jsstring) : jsstring := trim_end (trim_start s).

(** [String.prototype.startsWith]. *)
Fixpoint startsWith (s prefix : jsstring) : bool :=
  match prefix, s with
  | [], _ => true
  | p :: ps, c :: cs => (p =? c) && startsWith cs ps
  | _ :: _, [] => false
  end.

(** Edge tests used to state what [trim] leaves. *)
Definition starts_ws (s : jsstring) : bool :=
  match s with c :: _ => is_js_ws c | [] => false end.
Definition ends_ws (s : jsstring) : bool := starts_ws (rev s).

(** ** sources/hooks/useCommandDetector.ts *)

Record UseCommandDetectorResult := {
  isActive : bool;
  (** [clear] is a [useCallback] returning [''] *)
  clear : unit -> jsstring
}.

Definition useCommandDetector (text trigger : jsstring)
  : UseCommandDetectorResult :=
  let trimmedText := trim text in
  let isActive := js_eqb trimmedText trigger in
  let clear := fun _ : unit => js "" in
  {| isActive := isActive; clear := clear |}.

(** ** sources/components/CommandPalette.tsx *)

(** A JS number produced by the handler: an integer, or [NaN]
    (what [x % 0] evaluates to). *)
Inductive jsnum :=
| JInt (z : Z)
| JNaN.

(** JS [%] on integers: truncated remainder, [NaN] for a zero divisor. *)
Definition js_rem (a b : Z) : jsnum :=
  if b =? 0 then JNaN else JInt (Z.rem a b).

Record CommandItem := {
  item_id : jsstring;
  item_label : jsstring
}.

(** The props [handleKeyPress] reads. *)
Record CommandPaletteProps := {
  visible : bool;
  items : list CommandItem;
  selectedIndex : Z
}.

(** Observable effects of the key handler, in order. *)
Inductive palette_effect :=
| PreventDefault
| OnClose
| OnSelect (index : jsnum)
| HapticsLight.

Definition len {A} (l : list A) : Z := Z.of_nat (List.length l).

(** [handleSelect]: haptic feedback, then [props.onSelect(index)]. *)
Definition handleSelect (props : CommandPaletteProps) (index : Z)
  : list palette_effect :=
  [HapticsLight; OnSelect (JInt index)].

(** [handleKeyPress], for a [keydown] event with the given [event.key]. *)
Definition handleKeyPress (props : CommandPaletteProps) (key : jsstring)
  : list palette_effect :=
  if negb (visible props) then []
  else if js_eqb key (js "Escape") then [OnClose]
  else if js_eqb key (js "ArrowUp") then
    let newIndex :=
      if 0 <? selectedIndex props then JInt (selectedIndex props - 1)
      else JInt (len (items props) - 1) in
    [PreventDefault; OnSelect newIndex]
  else if js_eqb key (js "ArrowDown") then
    let newIndex := js_rem (selectedIndex props + 1) (len (items props)) in
    [PreventDefault; OnSelect newIndex]
  else if js_eqb key (js "Enter") && (0 <? len (items props)) then
    PreventDefault :: handleSelect props (selectedIndex props)
  else [].

(** ** docs/plans/2025-01-03-slash-commands-design.md: registry *)

Inductive CommandType := Rpc | Message.

Record SlashCommand := {
  cmd_id : jsstring;
  trigger : jsstring;
  cmd_name : jsstring;
  description : jsstring;
  cmd_type : CommandType;
  rpcName : option jsstring;
  requiresSession : option bool
}.

Definition model_command : SlashCommand :=
  {| cmd_id := js "model"; trigger := js "/model";
     cmd_name := js "Select Model"; description := js "Change the AI model";
     cmd_type := Rpc; rpcName := Some (js "setModel");
     requiresSession := Some true |}.

Definition SLASH_COMMANDS : list SlashCommand := [model_command].

(** ** AgentInput: the command detection effect on [props.value] *)

Record CommandUI := {
  showCommandPalette : bool;
  showAutocomplete : bool;
  filteredCommands : list SlashCommand
}.

Definition detectCommands (registry : list SlashCommand) (value : jsstring)
  : CommandUI :=
  let trimmed := trim value in
  if js_eqb trimmed (js "/") then
    {| showCommandPalette := true; showAutocomplete := false;
       filteredCommands := registry |}
  else if startsWith trimmed (js "/") then
    let matches := filter (fun cmd => startsWith (trigger cmd) trimmed) registry in
    {| showCommandPalette := false;
       showAutocomplete := 0 <? len matches;
       filteredCommands := matches |}
  else
    {| showCommandPalette := false; showAutocomplete := false;
       filteredCommands := [] |}.

(** ** docs/plans/2025-01-03-slash-commands-design.md: execution *)

(** A value thrown in JS: an [Error] object (with its [message]) or any
    other value. *)
Inductive thrown :=
| ErrorObj (message : jsstring)
| NonErrorValue.

(** What [apiSocket.sessionRPC] resolves to: an object with optional
    [success] and [message] fields, or [null] / [undefined]. *)
Inductive rpc_response :=
| RespObj (success : option bool) (message : option jsstring)
| RespNull
| RespUndefined.

Definition rpc_params := list (jsstring * jsstring).

(** The socket returned by [getApiSyncSocket()]: its [sessionRPC] either
    resolves to a response or throws. *)
Record ApiSocket := {
  socket_sessionRPC : jsstring -> option jsstring -> rpc_params -> rpc_response + thrown
}.

(** Effects visible outside the executor. *)
Inductive exec_effect :=
| Alert (title message : jsstring)
| SetIsExecuting (b : bool)
| SocketCall (sessionId : jsstring) (method : option jsstring) (params : rpc_params).

Inductive result (A : Type) :=
| Ok (a : A)
| Exn (e : thrown).
Arguments Ok {A} a.
Arguments Exn {A} e.

(** State (the effect trace) and exceptions. *)
Definition M (A : Type) := list exec_effect -> list exec_effect * result A.

Definition ret {A} (a : A) : M A := fun tr => (tr, Ok a).
Definition bind {A B} (m : M A) (f : A -> M B) : M B :=
  fun tr => match m tr with
            | (tr', Ok a) => f a tr'
            | (tr', Exn e) => (tr', Exn e)
            end.
Definition throw {A} (e : thrown) : M A := fun tr => (tr, Exn e).
Definition emit (e : exec_effect) : M unit := fun tr => (tr ++ [e], Ok tt).

(** [try { m } catch (e) { h(e) }] *)
Definition try_catch {A} (m : M A) (h : thrown -> M A) : M A :=
  fun tr => match m tr with
            | (tr', Ok a) => (tr', Ok a)
            | (tr', Exn e) => h e tr'
            end.

(** [try { m } finally { f }] *)
Definition try_finally {A} (m : M A) (f : M unit) : M A :=
  fun tr => match m tr with
            | (tr', r) => match f tr' with
                          | (tr'', Ok _) => (tr'', r)
                          | (tr'', Exn e) => (tr'', Exn e)
                          end
            end.

Notation "x <- m ;; k" := (bind m (fun x => k))
  (at level 61, m at next level, right associativity).
Notation "m ;;; k" := (bind m (fun _ => k))
  (at level 61, right associativity).

(** [a || b] on an optional string. *)
Definition str_or (a : option jsstring) (b : jsstring) : jsstring :=
  match a with
  | Some ((_ :: _) as s) => s
  | _ => b
  end.

(** [error instanceof Error ? error.message : fallback] *)
Definition error_message (e : thrown) (fallback : jsstring) : jsstring :=
  match e with
  | ErrorObj m => m
  | NonErrorValue => fallback
  end.

(** sources/sync/ops.ts [sessionRPC]; [api] is what [getApiSyncSocket()]
    returns. *)
Definition sessionRPC (api : option ApiSocket) (sessionId : jsstring)
  (method : option jsstring) (params : option rpc_params) : M rpc_response :=
  try_catch
    (match api with
     | None => ret (RespObj (Some false) (Some (js "Not connected to session")))
     | Some apiSocket =>
         let p := match params with Some p => p | None => [] end in
         emit (SocketCall sessionId method p) ;;;
         match socket_sessionRPC apiSocket sessionId method p with
         | inl response => ret response
         | inr e => throw e
         end
     end)
    (fun error =>
       ret (RespObj (Some false)
              (Some (error_message error (js "RPC call failed"))))).

(** [result.success]: reading a field of [null] / [undefined] throws a
    [TypeError]. *)
Definition read_success (r : rpc_response) : M (option bool) :=
  match r with
  | RespObj s _ => ret s
  | RespNull =>
      throw (ErrorObj (js "Cannot read properties of null (reading 'success')"))
  | RespUndefined =>
      throw (ErrorObj (js "Cannot read properties of undefined (reading 'success')"))
  end.

Definition read_message (r : rpc_response) : option jsstring :=
  match r with RespObj _ m => m | _ => None end.

(** [!x] on an optional boolean. *)
Definition js_not (b : option bool) : bool :=
  match b with Some true => false | _ => true end.

(** [!s] on a string: true for the empty string. *)
Definition js_not_str (s : jsstring) : bool :=
  match s with [] => true | _ => false end.

(** [useCommandExecutor(sessionId).executeCommand(command, params)]. *)
Definition executeCommand (api : option ApiSocket) (sessionId : jsstring)
  (command : SlashCommand) (params : option rpc_params) : M unit :=
  if negb (js_not (requiresSession command)) && js_not_str sessionId then
    emit (Alert (js "Error") (js "Please start a session first"))
  else
    emit (SetIsExecuting true) ;;;
    try_finally
      (try_catch
         (match cmd_type command with
          | Rpc =>
              result <- sessionRPC api sessionId (rpcName command) params ;;
              success <- read_success result ;;
              if js_not success then
                emit (Alert (js "Error") (str_or (read_message result) (js "Command failed")))
              else ret tt
          | Message => ret tt
          end)
         (fun error =>
            emit (Alert (js "Error") (error_message error (js "Command failed")))))
      (emit (SetIsExecuting false)).

(** The number of calls the trace shows on the RPC socket. *)
Definition socket_calls (tr : list exec_effect) : nat :=
  List.length (filter (fun e => match e with SocketCall _ _ _ => true | _ => false end) tr).

(** Modelled from the spec: the Session Reference of the spec's data model
    (an opaque identifier plus a liveness flag, owned by the surrounding
    application). The executor only receives the identifier. *)
Record SessionRef := {
  session_id : jsstring;
  session_live : bool
}.

(** [params || {}] *)
Definition params_or_empty (params : option rpc_params) : rpc_params :=
  match params with Some p => p | None => [] end.

(** The session-requirement check of [executeCommand] lets the call through. *)
Definition passes_session_check (sessionId : jsstring) (command : SlashCommand) : Prop :=
  requiresSession command <> Some true \/ sessionId <> [].

(** A transport-level failure of the remote call: no socket (disconnected),
    a socket call that throws, or a response that is not an object. *)
Definition transport_failure (api : option ApiSocket) (sessionId : jsstring)
  (method : option jsstring) (params : rpc_params) : Prop :=
  match api with
  | None => True
  | Some s =>
      match socket_sessionRPC s sessionId method params with
      | inr _ => True
      | inl (RespObj _ _) => False
      | inl RespNull | inl RespUndefined => True
      end
  end.

(** A connected socket on which every call resolves to [{ success: true }]. *)
Definition ok_socket : ApiSocket :=
  {| socket_sessionRPC := fun _ _ _ => inl (RespObj (Some true) None) |}.

(** A connected socket on which every call throws (a timeout). *)
Definition throwing_socket : ApiSocket :=
  {| socket_sessionRPC := fun _ _ _ => inr (ErrorObj (js "timeout")) |}.

(** ** sources/components/CommandPalette.tsx: rendering *)

(** The props the rendering reads besides those of [handleKeyPress]. *)
Record CommandPaletteRenderProps := {
  base : CommandPaletteProps;
  title : jsstring;
  emptyMessage : option jsstring
}.

Inductive palette_view :=
| PaletteHidden
(** [props.title && <Text>]: the title is rendered only when non-empty. *)
| PaletteEmpty (shownTitle : option jsstring) (message : jsstring)
| PaletteRows (shownTitle : option jsstring) (rows : list (CommandItem * bool)).

(** [props.items.map((item, index) => ... index === props.selectedIndex ...)],
    from index [i] on. *)
Fixpoint palette_rows (i : Z) (l : list CommandItem) (sel : Z)
  : list (CommandItem * bool) :=
  match l with
  | [] => []
  | item :: r => (item, i =? sel) :: palette_rows (i + 1) r sel
  end.

Definition renderCommandPalette (rp : CommandPaletteRenderProps) : palette_view :=
  let props := base rp in
  if negb (visible props) then PaletteHidden
  else
    let shownTitle := if js_not_str (title rp) then None else Some (title rp) in
    let isEmpty := len (items props) =? 0 in
    if isEmpty then
      PaletteEmpty shownTitle (str_or (emptyMessage rp) (js "No items available"))
    else PaletteRows shownTitle (palette_rows 0 (items props) (selectedIndex props)).

(** The index the key handler hands to [onSelect], if any. *)
Fixpoint selected_by (effs : list palette_effect) : option jsnum :=
  match effs with
  | [] => None
  | OnSelect n :: _ => Some n
  | _ :: r => selected_by r
  end.

(** The props after the parent stores [i] as [selectedIndex]. *)
Definition with_selected (p : CommandPaletteProps) (i : Z) : CommandPaletteProps :=
  {| visible := visible p; items := items p; selectedIndex := i |}.

(** [k] ArrowDown presses, each on the index the previous one selected. *)
Fixpoint arrow_down_iter (p : CommandPaletteProps) (k : nat) : option jsnum :=
  match k with
  | O => Some (JInt (selectedIndex p))
  | S k' =>
      match arrow_down_iter p k' with
      | Some (JInt i) => selected_by (handleKeyPress (with_selected p i) (js "ArrowDown"))
      | other => other
      end
  end.

(** ** AgentInput: [handleCommandSelect] *)

(** Effects of [handleCommandSelect]: the executor's, then the input and the
    command UI state updates. *)
Inductive agent_effect :=
| Exec (e : exec_effect)
| OnChangeText (text : jsstring)
| SetShowCommandPalette (b : bool)
| SetShowAutocomplete (b : bool).

Definition handleCommandSelect (api : option ApiSocket) (sessionId : jsstring)
  (command : SlashCommand) : list agent_effect * result unit :=
  if js_eqb (cmd_id command) (js "model") then
    ([SetShowCommandPalette false; SetShowAutocomplete false], Ok tt)
  else
    match executeCommand api sessionId command None [] with
    | (tr, Ok _) =>
        (map Exec tr ++ [OnChangeText (js ""); SetShowCommandPalette false;
                         SetShowAutocomplete false], Ok tt)
    | (tr, Exn e) => (map Exec tr, Exn e)
    end.

(** ** docs/plans/2025-01-03-slash-commands-design.md: CommandAutocomplete *)

(** [null] when hidden or empty, else the rows of [commands.slice(0, 5)]. *)
Definition CommandAutocomplete (visible_ : bool) (commands : list SlashCommand)
  : option (list SlashCommand) :=
  if negb visible_ || (len commands =? 0) then None
  else Some (firstn 5 commands).

(** ** docs/plans/2025-01-03-slash-commands-design.md: palette search *)

(** [String.prototype.includes]. *)
Fixpoint includes (s q : jsstring) : bool :=
  startsWith s q || match s with [] => false | _ :: r => includes r q end.

Section Search.
(** [String.prototype.toLowerCase]: the Unicode case mapping, left abstract. *)
Variable toLowerCase : jsstring -> jsstring.

(** [handleSearchChange]: the registry entries whose name, trigger or
    description contains the query, case-insensitively. *)
Definition handleSearchChange (registry : list SlashCommand) (query : jsstring)
  : list SlashCommand :=
  filter (fun cmd =>
            includes (toLowerCase (cmd_name cmd)) (toLowerCase query) ||
            includes (toLowerCase (trigger cmd)) (toLowerCase query) ||
            includes (toLowerCase (description cmd)) (toLowerCase query))
    registry.
End Search.

(** [toLowerCase] on the ASCII range, for evaluation. *)
Definition ascii_toLowerCase (s : jsstring) : jsstring :=
  map (fun c => if (65 <=? c) && (c <=? 90) then c + 32 else c) s.

(** ** sources/components/ModelSelectorModal.tsx *)

Inductive Provider := Anthropic | OpenAI | Google | Other.

Record Model := {
  model_id : jsstring;
  model_name : jsstring;
  provider : Provider
}.

Record ModelSelectorModalProps := {
  msm_visible : bool;
  models : list Model;
  selectedModelId : option jsstring;
  isLoading : option bool
}.

(** [props.selectedModel]: the props declare [selectedModelId] (and the
    caller in the design doc passes [selectedModelId]); [selectedModel] is
    not one of them, so the read yields [undefined]. *)
Definition read_selectedModel (p : ModelSelectorModalProps) : option jsstring := None.

Inductive model_view :=
| ModalHidden
| ModalLoading
| ModalEmpty (message : jsstring)
| ModalRows (rows : list (Model * bool)).

Definition renderModelSelectorModal (p : ModelSelectorModalProps) : model_view :=
  if negb (msm_visible p) then ModalHidden
  else if negb (js_not (isLoading p)) then ModalLoading
  else if len (models p) =? 0 then ModalEmpty (js "Configure models in CLI")
  else ModalRows
         (map (fun model =>
                 (model, match read_selectedModel p with
                         | Some s => js_eqb (model_id model) s
                         | None => false
                         end))
              (models p)).

Definition is_flag (e : exec_effect) : bool :=
  match e with SetIsExecuting _ => true | _ => false end.

(** Sample inputs used by the checks below. *)

Definition sample_items : list CommandItem :=
  [{| item_id := js "a"; item_label := js "A" |};
   {| item_id := js "b"; item_label := js "B" |};
   {| item_id := js "c"; item_label := js "C" |}].

Definition sample_render_props : CommandPaletteRenderProps :=
  {| base := {| visible := true; items := sample_items; selectedIndex := 1 |};
     title := js "Select Model"; emptyMessage := None |}.

Definition settings_command : SlashCommand :=
  {| cmd_id := js "settings"; trigger := js "/settings";
     cmd_name := js "Settings"; description := js "Open app settings";
     cmd_type := Message; rpcName := None; requiresSession := Some false |}.

Definition failing_socket : ApiSocket :=
  {| socket_sessionRPC := fun _ _ _ => inl (RespObj None (Some (js ""))) |}.

Definition sample_modal_props : ModelSelectorModalProps :=
  {| msm_visible := true;
     models := [{| model_id := js "sonnet"; model_name := js "Sonnet"; provider := Anthropic |};
                {| model_id := js "gpt"; model_name := js "GPT"; provider := OpenAI |}];
     selectedModelId := Some (js "sonnet");
     isLoading := None |}.

(** ** Evaluation checks *)

Example detect_examples :
  isActive (useCommandDetector (js "/model") (js "/model")) = true /\
  isActive (useCommandDetector (js "/Model") (js "/model")) = false /\
  isActive (useCommandDetector (js "  /model  ") (js "/model")) = true /\
  isActive (useCommandDetector (js "/model extra") (js "/model")) = false.
Proof. repeat split; reflexivity. Qed.

Example filter_examples :
  filteredCommands (detectCommands SLASH_COMMANDS (js "/mo")) = SLASH_COMMANDS /\
  filteredCommands (detectCommands SLASH_COMMANDS (js "/x")) = [] /\
  showCommandPalette (detectCommands SLASH_COMMANDS (js "/")) = true.
Proof. repeat split; reflexivity. Qed.

(** ** Properties of [trim] *)

Lemma js_eqb_true a b : js_eqb a b = true <-> a = b.
Proof.
  unfold js_eqb; destruct (list_eq_dec Z.eq_dec a b); split; congruence.
Qed.

Lemma forallb_rev {A} (f : A -> bool) l : forallb f (rev l) = forallb f l.
Proof.
  induction l as [|a l IH]; simpl; [reflexivity|].
  rewrite forallb_app, IH; simpl; rewrite andb_true_r, andb_comm; reflexivity.
Qed.

Lemma trim_start_all_ws l : forallb is_js_ws l = true -> trim_start l = [].
Proof.
  induction l as [|c l IH]; simpl; [reflexivity|].
  intros H; apply andb_true_iff in H as [-> H]; auto.
Qed.

Lemma trim_start_app_ws l m :
  forallb is_js_ws l = true -> trim_start (l ++ m) = trim_start m.
Proof.
  induction l as [|c l IH]; simpl; [reflexivity|].
  intros H; apply andb_true_iff in H as [-> H]; auto.
Qed.

Lemma trim_start_id m : starts_ws m = false -> trim_start m = m.
Proof. destruct m as [|c m]; simpl; [reflexivity|]; intros ->; reflexivity. Qed.

Lemma trim_start_decomp s :
  exists l, forallb is_js_ws l = true /\ s = l ++ trim_start s /\
            starts_ws (trim_start s) = false.
Proof.
  induction s as [|c s IH]; simpl.
  - exists []; auto.
  - case_eq (is_js_ws c); intros Hc.
    + destruct IH as (l & Hl & Hs & He).
      exists (c :: l); simpl; rewrite Hc, Hl; simpl; split; [reflexivity|].
      split; [congruence|exact He].
    + exists []; simpl; auto.
Qed.

Lemma trim_end_app_ws m r :
  forallb is_js_ws r = true -> trim_end (m ++ r) = trim_end m.
Proof.
  intros H; unfold trim_end; rewrite rev_app_distr, trim_start_app_ws;
    [reflexivity|rewrite forallb_rev; exact H].
Qed.

Lemma trim_end_id m : ends_ws m = false -> trim_end m = m.
Proof.
  unfold ends_ws, trim_end; intros H; rewrite trim_start_id by exact H.
  apply rev_involutive.
Qed.

Lemma trim_end_decomp s :
  exists r, forallb is_js_ws r = true /\ s = trim_end s ++ r /\
            ends_ws (trim_end s) = false.
Proof.
  destruct (trim_start_decomp (rev s)) as (l & Hl & Hs & He).
  exists (rev l); unfold trim_end, ends_ws; rewrite forallb_rev, rev_involutive.
  split; [exact Hl|]; split; [|exact He].
  rewrite <- rev_app_distr, <- Hs, rev_involutive; reflexivity.
Qed.

Lemma starts_ws_app_l t r : t <> [] -> starts_ws (t ++ r) = starts_ws t.
Proof. destruct t; simpl; congruence. Qed.

(** What [trim] returns, characterised without [trim]: [trim x = t] exactly
    when [x] is [t] surrounded by white space and [t] itself neither starts
    nor ends with white space. *)
Lemma trim_spec x t :
  trim x = t <->
  exists l r, forallb is_js_ws l = true /\ forallb is_js_ws r = true /\
              x = l ++ t ++ r /\ starts_ws t = false /\ ends_ws t = false.
Proof.
  split.
  - intros <-. unfold trim.
    destruct (trim_start_decomp x) as (l & Hl & Hx & Hs).
    destruct (trim_end_decomp (trim_start x)) as (r & Hr & Hu & He).
    exists l, r; split; [exact Hl|]; split; [exact Hr|].
    split; [rewrite Hx at 1; rewrite Hu at 1; reflexivity|].
    split; [|exact He].
    destruct (trim_end (trim_start x)) as [|c u] eqn:E; [reflexivity|].
    rewrite Hu in Hs; exact Hs.
  - intros (l & r & Hl & Hr & -> & Hs & He). unfold trim.
    rewrite trim_start_app_ws by exact Hl.
    destruct t as [|c t].
    + simpl; rewrite trim_start_all_ws by exact Hr; reflexivity.
    + rewrite trim_start_id by (rewrite starts_ws_app_l by discriminate; exact Hs).
      rewrite trim_end_app_ws by exact Hr; apply trim_end_id; exact He.
Qed.

(** ** Trigger detection *)

(** C3: [useCommandDetector(x, t).isActive] holds iff [x.trim() === t]; that
    is iff [x] is [t] with only white space around it and [t] does not begin
    or end with white space (internal white space of [x] is kept, the
    comparison is code unit by code unit, so case-sensitive); the empty input
    is active only for the empty trigger. *)
Theorem useCommandDetector_isActive_iff_trim (x t : jsstring) :
  (isActive (useCommandDetector x t) = true <-> trim x = t) /\
  (isActive (useCommandDetector x t) = true <->
   exists l r, forallb is_js_ws l = true /\ forallb is_js_ws r = true /\
               x = l ++ t ++ r /\ starts_ws t = false /\ ends_ws t = false) /\
  isActive (useCommandDetector (js "") t) = match t with [] => true | _ => false end.
Proof.
  assert (E : isActive (useCommandDetector x t) = true <-> trim x = t)
    by (simpl; apply js_eqb_true).
  split; [exact E|]; split.
  - rewrite E; apply trim_spec.
  - destruct t; reflexivity.
Qed.

(** C8: the [clear] callback returns the empty string whatever the text and
    trigger the hook was called with. *)
Theorem useCommandDetector_clear_empty (x t : jsstring) (u : unit) :
  clear (useCommandDetector x t) u = js "".
Proof. reflexivity. Qed.

(** C10: with the empty trigger, every all-white-space input (the empty
    string included) is active. *)
Theorem useCommandDetector_empty_trigger_ws (x : jsstring) :
  forallb is_js_ws x = true -> isActive (useCommandDetector x (js "")) = true.
Proof.
  intros H; simpl; unfold trim; rewrite (trim_start_all_ws x H); reflexivity.
Qed.

Lemma useCommandDetector_empty_trigger_ws_witness :
  forallb is_js_ws (js "  ") = true /\
  isActive (useCommandDetector (js "  ") (js "")) = true.
Proof.
  split; [reflexivity|].
  apply useCommandDetector_empty_trigger_ws; reflexivity.
Defined.

(** ** Keyboard selection in the palette *)

(** With a non-empty list and an in-range [selectedIndex], ArrowUp and
    ArrowDown move by one and wrap around at both ends. *)
Lemma arrow_keys_nonempty (p : CommandPaletteProps) :
  visible p = true -> 0 <= selectedIndex p < len (items p) ->
  handleKeyPress p (js "ArrowUp") =
    [PreventDefault; OnSelect (JInt (if selectedIndex p =? 0
                                     then len (items p) - 1
                                     else selectedIndex p - 1))] /\
  handleKeyPress p (js "ArrowDown") =
    [PreventDefault; OnSelect (JInt (if selectedIndex p =? len (items p) - 1
                                     then 0
                                     else selectedIndex p + 1))].
Proof.
  intros Hv Hr; unfold handleKeyPress; rewrite Hv; simpl; split.
  - destruct (Z.ltb_spec 0 (selectedIndex p));
      destruct (Z.eqb_spec (selectedIndex p) 0); try lia; reflexivity.
  - unfold js_rem.
    destruct (Z.eqb_spec (len (items p)) 0); [lia|].
    destruct (Z.eqb_spec (selectedIndex p) (len (items p) - 1)) as [E|E].
    + rewrite E, Z.sub_add, Z.rem_same by lia; reflexivity.
    + rewrite Z.rem_small by lia; reflexivity.
Qed.

(** C1 (amended): the palette does not own the highlighted index; given a
    non-empty items list and an in-range [selectedIndex], every index the
    key handler passes to [onSelect] lies in [0, items.length). *)
Theorem handleKeyPress_index_in_range (p : CommandPaletteProps) (key : jsstring) :
  visible p = true -> 0 <= selectedIndex p < len (items p) ->
  forall n, In (OnSelect n) (handleKeyPress p key) ->
  exists i, n = JInt i /\ 0 <= i < len (items p).
Proof.
  intros Hv Hr n Hin.
  destruct (arrow_keys_nonempty p Hv Hr) as [Hup Hdown].
  destruct (js_eqb key (js "ArrowUp")) eqn:Eup.
  { apply js_eqb_true in Eup; subst key; rewrite Hup in Hin.
    simpl in Hin; destruct Hin as [H|[H|[]]]; try discriminate.
    injection H as <-; eexists; split; [reflexivity|].
    destruct (Z.eqb_spec (selectedIndex p) 0); lia. }
  destruct (js_eqb key (js "ArrowDown")) eqn:Edown.
  { apply js_eqb_true in Edown; subst key; rewrite Hdown in Hin.
    simpl in Hin; destruct Hin as [H|[H|[]]]; try discriminate.
    injection H as <-; eexists; split; [reflexivity|].
    destruct (Z.eqb_spec (selectedIndex p) (len (items p) - 1)); lia. }
  unfold handleKeyPress in Hin; rewrite Hv, Eup, Edown in Hin; simpl in Hin.
  destruct (js_eqb key (js "Escape")).
  { simpl in Hin; destruct Hin as [H|[]]; discriminate. }
  destruct (js_eqb key (js "Enter") && (0 <? len (items p))).
  - simpl in Hin; destruct Hin as [H|[H|[H|[]]]]; try discriminate.
    injection H as <-; eexists; split; [reflexivity|exact Hr].
  - destruct Hin.
Qed.

Lemma handleKeyPress_index_in_range_witness :
  (visible {| visible := true; items := [{| item_id := js "a"; item_label := js "A" |};
                                         {| item_id := js "b"; item_label := js "B" |}];
              selectedIndex := 0 |} = true /\
   0 <= 0 < 2) /\
  exists i, OnSelect (JInt 1) = OnSelect (JInt i) /\ 0 <= i < 2.
Proof.
  split; [split; [reflexivity|lia]|].
  set (p := {| visible := true; items := [{| item_id := js "a"; item_label := js "A" |};
                                         {| item_id := js "b"; item_label := js "B" |}];
              selectedIndex := 0 |}).
  destruct (handleKeyPress_index_in_range p (js "ArrowUp") eq_refl
              ltac:(simpl; unfold len; simpl; lia) (JInt 1) ltac:(vm_compute; auto))
    as (i & Hi & Hr).
  exists i; split; [rewrite Hi; reflexivity|exact Hr].
Defined.

(** C1 counterexample: the index is a prop the palette does not clamp; a
    stale [selectedIndex] 5 over three items gives ArrowUp the index 4,
    outside [0, 3). *)
Lemma handleKeyPress_stale_index_out_of_range :
  let p := {| visible := true;
              items := [{| item_id := js "a"; item_label := js "A" |};
                        {| item_id := js "b"; item_label := js "B" |};
                        {| item_id := js "c"; item_label := js "C" |}];
              selectedIndex := 5 |} in
  handleKeyPress p (js "ArrowUp") = [PreventDefault; OnSelect (JInt 4)] /\
  ~ (0 <= 4 < len (items p)).
Proof. simpl; split; [reflexivity|unfold len; simpl; lia]. Qed.

(** C2: evaluated at an empty items list (a state the palette renders with
    its empty message), ArrowUp passes -1 and ArrowDown passes [NaN]
    ([(0 + 1) % 0]) to [onSelect]; neither is a no-op, while the Enter
    branch, guarded by [items.length > 0], does nothing. *)
Theorem handleKeyPress_empty_items_arrows :
  let p := {| visible := true; items := []; selectedIndex := 0 |} in
  handleKeyPress p (js "ArrowUp") = [PreventDefault; OnSelect (JInt (-1))] /\
  handleKeyPress p (js "ArrowDown") = [PreventDefault; OnSelect JNaN] /\
  handleKeyPress p (js "Enter") = [].
Proof. repeat split; reflexivity. Qed.

(** C9: with an empty items list, Enter produces no effect at all: in
    particular [onSelect] is not called, visible palette or not. *)
Theorem handleKeyPress_enter_empty_noop (p : CommandPaletteProps) :
  items p = [] -> handleKeyPress p (js "Enter") = [].
Proof.
  intros H; unfold handleKeyPress; rewrite H.
  destruct (visible p); reflexivity.
Qed.

Lemma handleKeyPress_enter_empty_noop_witness :
  items {| visible := true; items := []; selectedIndex := 0 |} = [] /\
  handleKeyPress {| visible := true; items := []; selectedIndex := 0 |} (js "Enter") = [].
Proof.
  split; [reflexivity|].
  apply handleKeyPress_enter_empty_noop; reflexivity.
Defined.

(** ** Command execution *)

Ltac unfold_exec :=
  unfold executeCommand, sessionRPC, read_success, try_finally, try_catch,
    bind, emit, ret, throw in *.

(** C4 (amended): a command with [requiresSession: true] and an empty
    session id only raises the error alert: the trace grows by that alert
    alone, so neither [sessionRPC] nor the socket is called. *)
Theorem executeCommand_requires_session
  (api : option ApiSocket) (sessionId : jsstring) (command : SlashCommand)
  (params : option rpc_params) (tr : list exec_effect) :
  requiresSession command = Some true -> sessionId = [] ->
  executeCommand api sessionId command params tr =
    (tr ++ [Alert (js "Error") (js "Please start a session first")], Ok tt).
Proof.
  intros Hr Hs; subst sessionId; unfold executeCommand; rewrite Hr; reflexivity.
Qed.

Lemma executeCommand_requires_session_witness :
  (requiresSession (model_command) = Some true /\ js "" = []) /\
  socket_calls (fst (executeCommand None (js "") (model_command) None [])) = 0%nat.
Proof.
  split; [split; reflexivity|].
  rewrite (executeCommand_requires_session None (js "") (model_command)
             None [] eq_refl eq_refl).
  reflexivity.
Defined.

(** C4 counterexample: the executor receives only the session id; for a
    session reference whose id is ["s1"] but which is not live, the
    [/model] command still makes one call on the RPC socket. *)
Lemma executeCommand_dead_session_calls_rpc :
  let session := {| session_id := js "s1"; session_live := false |} in
  session_live session = false /\
  requiresSession model_command = Some true /\
  socket_calls (fst (executeCommand (Some ok_socket) (session_id session)
                       model_command None [])) = 1%nat.
Proof. repeat split; reflexivity. Qed.

(** C5: [executeCommand] never completes by an exception, whatever the
    socket does; and when the call reaches the remote method and the
    transport fails (no socket, a thrown error, a [null] or [undefined]
    response), an error alert with a non-empty message is shown. *)
Theorem executeCommand_contains_transport_failure
  (api : option ApiSocket) (sessionId : jsstring) (command : SlashCommand)
  (params : option rpc_params) (tr : list exec_effect) :
  snd (executeCommand api sessionId command params tr) = Ok tt /\
  (cmd_type command = Rpc -> passes_session_check sessionId command ->
   transport_failure api sessionId (rpcName command) (params_or_empty params) ->
   exists msg, msg <> [] /\
     In (Alert (js "Error") msg) (fst (executeCommand api sessionId command params tr))).
Proof.
  unfold_exec.
  destruct (negb (js_not (requiresSession command)) && js_not_str sessionId) eqn:Hchk.
  - split; [reflexivity|].
    intros _ Hp _; exfalso.
    destruct (requiresSession command) as [[|]|] eqn:Hr; simpl in Hchk; try discriminate.
    destruct sessionId; simpl in Hchk; try discriminate.
    destruct Hp as [Hp|Hp]; apply Hp; [exact Hr|reflexivity].
  - destruct (cmd_type command).
    2: { split; [reflexivity|]; intros H; discriminate H. }
    destruct api as [s|].
    + unfold transport_failure.
      destruct (socket_sessionRPC s sessionId (rpcName command)
                  (match params with Some p => p | None => [] end)) as [r|e] eqn:Hs;
        change (match params with Some p => p | None => [] end)
          with (params_or_empty params) in *; rewrite ?Hs.
      * destruct r as [sc m| |]; simpl.
        -- destruct (js_not sc); split; try reflexivity; intros _ _ [].
        -- split; [reflexivity|]; intros _ _ _; eexists; split; cycle 1;
             [rewrite !in_app_iff; simpl; eauto|intro E; discriminate E].
        -- split; [reflexivity|]; intros _ _ _; eexists; split; cycle 1;
             [rewrite !in_app_iff; simpl; eauto|intro E; discriminate E].
      * simpl; split; [reflexivity|]; intros _ _ _.
        eexists; split; cycle 1;
          [rewrite !in_app_iff; simpl; eauto|destruct (error_message e (js "RPC call failed")); intro E; discriminate E].
    + simpl; split; [reflexivity|]; intros _ _ _.
      eexists; split; cycle 1;
        [rewrite !in_app_iff; simpl; eauto|intro E; discriminate E].
Qed.

Lemma executeCommand_contains_transport_failure_witness :
  (cmd_type model_command = Rpc /\
   passes_session_check (js "s1") model_command /\
   transport_failure (Some throwing_socket) (js "s1") (rpcName model_command)
     (params_or_empty None)) /\
  exists msg, msg <> [] /\
    In (Alert (js "Error") msg)
       (fst (executeCommand (Some throwing_socket) (js "s1") model_command None [])).
Proof.
  split; [split; [reflexivity|split; [right; intro E; discriminate E|exact I]]|].
  apply (proj2 (executeCommand_contains_transport_failure
                  (Some throwing_socket) (js "s1") model_command None [])).
  - reflexivity.
  - right; intro E; discriminate E.
  - exact I.
Defined.

(** ** Candidate filtering *)

Lemma startsWith_app s p : startsWith s p = true <-> exists z, s = p ++ z.
Proof.
  revert s; induction p as [|c p IH]; intros s; simpl.
  - split; [intros _; exists s; reflexivity|destruct s; reflexivity].
  - destruct s as [|d s].
    + split; [discriminate|intros [z E]; discriminate E].
    + change (startsWith (d :: s) (c :: p)) with ((c =? d) && startsWith s p).
      rewrite andb_true_iff, IH, Z.eqb_eq; split.
      * intros [-> [z ->]]; exists z; reflexivity.
      * intros [z E]; injection E as -> ->; split; [reflexivity|exists z; reflexivity].
Qed.

Lemma trim_start_app l m :
  trim_start (l ++ m) = if forallb is_js_ws l then trim_start m else trim_start l ++ m.
Proof.
  induction l as [|c l IH]; simpl; [reflexivity|].
  destruct (is_js_ws c); simpl; [exact IH|reflexivity].
Qed.

Lemma trim_end_app x z :
  trim_end (x ++ z) = if forallb is_js_ws z then trim_end x else x ++ trim_end z.
Proof.
  unfold trim_end; rewrite rev_app_distr, trim_start_app, forallb_rev.
  destruct (forallb is_js_ws z); [reflexivity|].
  rewrite rev_app_distr, rev_involutive; reflexivity.
Qed.

(** An input starting with [/] trims to [/] followed by something. *)
Lemma trim_slash x :
  startsWith x (js "/") = true -> exists u, trim x = 47 :: u.
Proof.
  intros H; apply startsWith_app in H as [x' ->].
  unfold trim; rewrite trim_start_id by reflexivity.
  destruct (trim_end_decomp (js "/" ++ x')) as (r & Hr & Hx & _).
  destruct (trim_end (js "/" ++ x')) as [|c u] eqn:E.
  - simpl in Hx; rewrite <- Hx in Hr; discriminate Hr.
  - simpl in Hx; injection Hx as -> _; exists u; reflexivity.
Qed.

(** For inputs starting with [/], trimming keeps the prefix order. *)
Lemma trim_prefix x y :
  startsWith x (js "/") = true -> startsWith y x = true ->
  exists w, trim y = trim x ++ w.
Proof.
  intros Hx Hy.
  apply startsWith_app in Hy as [z ->].
  apply startsWith_app in Hx as [x' ->].
  unfold trim; rewrite !trim_start_id by reflexivity.
  rewrite trim_end_app.
  destruct (forallb is_js_ws z); [exists []; rewrite app_nil_r; reflexivity|].
  destruct (trim_end_decomp (js "/" ++ x')) as (r & _ & Hx & _).
  exists (r ++ trim_end z); rewrite app_assoc, <- Hx; reflexivity.
Qed.

Lemma detectCommands_incl_registry registry value :
  incl (filteredCommands (detectCommands registry value)) registry.
Proof.
  unfold detectCommands.
  destruct (js_eqb (trim value) (js "/")); [apply incl_refl|].
  destruct (startsWith (trim value) (js "/")); simpl.
  - intros c Hc; apply filter_In in Hc; apply Hc.
  - intros c [].
Qed.

(** C6 (amended): the mode is chosen on the trimmed input. Trimmed input
    exactly [/]: the palette shows the whole registry in order. Trimmed
    input starting with [/] and longer: the descriptors whose trigger starts
    with the trimmed input, in registry order (the palette hidden, the
    autocomplete shown when there is a match). Trimmed input not starting
    with [/], in particular an empty or all-white-space input: no candidates
    and all command UI hidden. *)
Theorem detectCommands_modes (registry : list SlashCommand) (value : jsstring) :
  (trim value = js "/" ->
   detectCommands registry value =
     {| showCommandPalette := true; showAutocomplete := false;
        filteredCommands := registry |}) /\
  (startsWith (trim value) (js "/") = true -> trim value <> js "/" ->
   let matches := filter (fun cmd => startsWith (trigger cmd) (trim value)) registry in
   detectCommands registry value =
     {| showCommandPalette := false; showAutocomplete := 0 <? len matches;
        filteredCommands := matches |}) /\
  (startsWith (trim value) (js "/") = false ->
   detectCommands registry value =
     {| showCommandPalette := false; showAutocomplete := false;
        filteredCommands := [] |}) /\
  (forallb is_js_ws value = true ->
   detectCommands registry value =
     {| showCommandPalette := false; showAutocomplete := false;
        filteredCommands := [] |}).
Proof.
  unfold detectCommands.
  assert (Hneq : startsWith (trim value) (js "/") = false ->
                 js_eqb (trim value) (js "/") = false).
  { intros H; destruct (js_eqb (trim value) (js "/")) eqn:E; [|reflexivity].
    apply js_eqb_true in E; rewrite E in H; discriminate H. }
  split; [|split; [|split]].
  - intros H; rewrite H; reflexivity.
  - intros Hs Hn.
    destruct (js_eqb (trim value) (js "/")) eqn:E;
      [apply js_eqb_true in E; contradiction|].
    rewrite Hs; reflexivity.
  - intros Hs; rewrite Hneq, Hs by exact Hs; reflexivity.
  - intros Hw.
    assert (Ht : trim value = []) by (unfold trim; rewrite trim_start_all_ws by exact Hw; reflexivity).
    rewrite Ht; reflexivity.
Qed.

Lemma detectCommands_modes_witness :
  trim (js " /mo ") <> js "/" /\
  startsWith (trim (js " /mo ")) (js "/") = true /\
  filteredCommands (detectCommands SLASH_COMMANDS (js " /mo ")) = SLASH_COMMANDS.
Proof.
  split; [intro E; discriminate E|split; [reflexivity|]].
  rewrite (proj1 (proj2 (detectCommands_modes SLASH_COMMANDS (js " /mo ")))
             eq_refl ltac:(intro E; discriminate E)).
  reflexivity.
Defined.

(** C6 counterexample: the input [" /mo"] does not start with [/], yet
    its candidates are not empty: the [/model] command is offered and the
    autocomplete is shown. *)
Lemma detectCommands_leading_space_not_hidden :
  startsWith (js " /mo") (js "/") = false /\
  filteredCommands (detectCommands SLASH_COMMANDS (js " /mo")) = [model_command] /\
  showAutocomplete (detectCommands SLASH_COMMANDS (js " /mo")) = true.
Proof. repeat split; reflexivity. Qed.

(** C7: for inputs [x] and [y] starting with [/], [x] a prefix of [y], the
    candidates for [y] are among the candidates for [x]. *)
Theorem detectCommands_monotone (registry : list SlashCommand) (x y : jsstring) :
  startsWith x (js "/") = true -> startsWith y (js "/") = true ->
  startsWith y x = true ->
  incl (filteredCommands (detectCommands registry y))
       (filteredCommands (detectCommands registry x)).
Proof.
  intros Hx _ Hxy.
  destruct (trim_slash x Hx) as [u Hu].
  destruct (trim_prefix x y Hx Hxy) as [w Hw].
  rewrite Hu in Hw; simpl in Hw.
  destruct u as [|c u].
  - unfold detectCommands at 2; rewrite Hu; simpl.
    apply detectCommands_incl_registry.
  - unfold detectCommands; rewrite Hu, Hw; simpl.
    intros cmd Hc; apply filter_In in Hc as [Hin Ht].
    apply filter_In; split; [exact Hin|].
    apply startsWith_app in Ht as [z Ez]; apply startsWith_app.
    exists (w ++ z); rewrite Ez; simpl; rewrite <- app_assoc; reflexivity.
Qed.

Lemma detectCommands_monotone_witness :
  (startsWith (js "/m") (js "/") = true /\ startsWith (js "/mo") (js "/") = true /\
   startsWith (js "/mo") (js "/m") = true) /\
  incl (filteredCommands (detectCommands SLASH_COMMANDS (js "/mo")))
       (filteredCommands (detectCommands SLASH_COMMANDS (js "/m"))).
Proof.
  split; [repeat split; reflexivity|].
  apply detectCommands_monotone; reflexivity.
Defined.

(** ** Palette rendering and key composition *)

Lemma palette_rows_selected (i : Z) (l : list CommandItem) (sel : Z) :
  filter snd (palette_rows i l sel) =
  if i <=? sel then
    match nth_error l (Z.to_nat (sel - i)) with
    | Some it => [(it, true)]
    | None => []
    end
  else [].
Proof.
  revert i; induction l as [|a l IH]; intros i; simpl.
  - destruct (i <=? sel); [destruct (Z.to_nat (sel - i)); reflexivity|reflexivity].
  - rewrite IH.
    destruct (Z.eqb_spec i sel) as [->|Hne]; simpl.
    + rewrite Z.leb_refl, Z.sub_diag; simpl.
      destruct (Z.leb_spec (sel + 1) sel); [lia|reflexivity].
    + destruct (Z.leb_spec i sel); destruct (Z.leb_spec (i + 1) sel); try lia;
        [|reflexivity].
      replace (Z.to_nat (sel - i)) with (S (Z.to_nat (sel - (i + 1)))) by lia.
      reflexivity.
Qed.

(** X1: a rendered palette marks at most one row as selected: the item at
    [selectedIndex] when that index is in range, no row otherwise. *)
Theorem renderCommandPalette_one_selected (rp : CommandPaletteRenderProps)
  (t : option jsstring) (rows : list (CommandItem * bool)) :
  renderCommandPalette rp = PaletteRows t rows ->
  filter snd rows =
  if 0 <=? selectedIndex (base rp) then
    match nth_error (items (base rp)) (Z.to_nat (selectedIndex (base rp))) with
    | Some it => [(it, true)]
    | None => []
    end
  else [].
Proof.
  unfold renderCommandPalette.
  destruct (visible (base rp)); [|discriminate].
  destruct (len (items (base rp)) =? 0); [discriminate|].
  intros H; injection H as _ <-.
  rewrite palette_rows_selected, Z.sub_0_r; reflexivity.
Qed.

Lemma renderCommandPalette_one_selected_witness :
  renderCommandPalette sample_render_props =
    PaletteRows (Some (js "Select Model"))
      (palette_rows 0 sample_items 1) /\
  filter snd (palette_rows 0 sample_items 1) =
    [({| item_id := js "b"; item_label := js "B" |}, true)].
Proof.
  split; [reflexivity|].
  apply (renderCommandPalette_one_selected sample_render_props
           (Some (js "Select Model"))).
  reflexivity.
Defined.

(** X2: a visible palette with no items renders the empty state, whose text
    is [emptyMessage] when non-empty and ["No items available"] otherwise
    (an empty [emptyMessage] included): never an empty text. *)
Theorem renderCommandPalette_empty (rp : CommandPaletteRenderProps) :
  visible (base rp) = true -> items (base rp) = [] ->
  exists t, renderCommandPalette rp =
              PaletteEmpty t (str_or (emptyMessage rp) (js "No items available")) /\
            str_or (emptyMessage rp) (js "No items available") <> [].
Proof.
  intros Hv Hi; unfold renderCommandPalette; rewrite Hv, Hi; simpl.
  eexists; split; [reflexivity|].
  destruct (emptyMessage rp) as [[|c m]|]; simpl; intro E; discriminate E.
Qed.

Lemma renderCommandPalette_empty_witness :
  let rp := {| base := {| visible := true; items := []; selectedIndex := 0 |};
               title := js ""; emptyMessage := Some (js "") |} in
  (visible (base rp) = true /\ items (base rp) = []) /\
  renderCommandPalette rp = PaletteEmpty None (js "No items available").
Proof.
  split; [split; reflexivity|].
  destruct (renderCommandPalette_empty
              {| base := {| visible := true; items := []; selectedIndex := 0 |};
                 title := js ""; emptyMessage := Some (js "") |} eq_refl eq_refl)
    as (t & E & _).
  rewrite E; simpl; f_equal.
  unfold renderCommandPalette in E; simpl in E; injection E as <-; reflexivity.
Defined.

Ltac solve_eqb :=
  repeat match goal with
         | |- context [?a =? ?b] =>
             lazymatch a with context [_ =? _] => fail | _ => idtac end;
             destruct (Z.eqb_spec a b)
         end; lia.

(** X3: ArrowUp undoes ArrowDown and ArrowDown undoes ArrowUp: with a
    non-empty list and an in-range index, pressing one key and then the
    other (the parent storing the selected index in between) comes back to
    the starting index. *)
Theorem arrow_keys_inverse (p : CommandPaletteProps) :
  visible p = true -> 0 <= selectedIndex p < len (items p) ->
  (exists d, selected_by (handleKeyPress p (js "ArrowDown")) = Some (JInt d) /\
             selected_by (handleKeyPress (with_selected p d) (js "ArrowUp")) =
               Some (JInt (selectedIndex p))) /\
  (exists u, selected_by (handleKeyPress p (js "ArrowUp")) = Some (JInt u) /\
             selected_by (handleKeyPress (with_selected p u) (js "ArrowDown")) =
               Some (JInt (selectedIndex p))).
Proof.
  intros Hv Hr.
  destruct (arrow_keys_nonempty p Hv Hr) as [Hup Hdown].
  rewrite Hup, Hdown; simpl.
  set (n := len (items p)) in *; set (s := selectedIndex p) in *.
  split.
  - set (d := if s =? n - 1 then 0 else s + 1).
    assert (Hd : 0 <= d < n) by (unfold d; destruct (Z.eqb_spec s (n - 1)); lia).
    exists d; split; [reflexivity|].
    destruct (arrow_keys_nonempty (with_selected p d) Hv Hd) as [Hup' _].
    rewrite Hup'; simpl; f_equal; f_equal.
    unfold d; unfold n, s in *; solve_eqb.
  - set (u := if s =? 0 then n - 1 else s - 1).
    assert (Hu : 0 <= u < n) by (unfold u; destruct (Z.eqb_spec s 0); lia).
    exists u; split; [reflexivity|].
    destruct (arrow_keys_nonempty (with_selected p u) Hv Hu) as [_ Hdown'].
    rewrite Hdown'; simpl; f_equal; f_equal.
    unfold u; unfold n, s in *; solve_eqb.
Qed.

Lemma arrow_keys_inverse_witness :
  let p := {| visible := true; items := sample_items; selectedIndex := 2 |} in
  (visible p = true /\ 0 <= selectedIndex p < len (items p)) /\
  selected_by (handleKeyPress (with_selected p 0) (js "ArrowUp")) = Some (JInt 2).
Proof.
  split; [split; [reflexivity|unfold len; simpl; lia]|].
  destruct (arrow_keys_inverse
              {| visible := true; items := sample_items; selectedIndex := 2 |}
              eq_refl ltac:(unfold len; simpl; lia)) as [[d [Hd Hu]] _].
  vm_compute in Hd; injection Hd as <-; exact Hu.
Defined.

(** X4: [k] ArrowDown presses from an in-range index land on
    [(selectedIndex + k) mod items.length]; so [items.length] presses come
    back to the starting row. *)
Theorem arrow_down_cycle (p : CommandPaletteProps) (k : nat) :
  visible p = true -> 0 <= selectedIndex p < len (items p) ->
  arrow_down_iter p k = Some (JInt ((selectedIndex p + Z.of_nat k) mod len (items p))) /\
  arrow_down_iter p (List.length (items p)) = Some (JInt (selectedIndex p)).
Proof.
  intros Hv Hr.
  assert (Gen : forall k, arrow_down_iter p k =
            Some (JInt ((selectedIndex p + Z.of_nat k) mod len (items p)))).
  { induction k0 as [|k0 IH]; simpl.
    - rewrite Z.add_0_r, Z.mod_small by lia; reflexivity.
    - rewrite IH; unfold handleKeyPress; simpl; rewrite Hv; simpl.
      unfold js_rem.
      destruct (Z.eqb_spec (len (items p)) 0); [lia|].
      f_equal; f_equal.
      assert (0 <= (selectedIndex p + Z.of_nat k0) mod len (items p) < len (items p))
        by (apply Z.mod_pos_bound; lia).
      rewrite Z.rem_mod_nonneg by lia.
      rewrite Zplus_mod_idemp_l; f_equal; lia. }
  split; [apply Gen|].
  rewrite Gen; fold (len (items p)).
  rewrite Z.add_mod, Z.mod_same, Z.add_0_r, Z.mod_mod, Z.mod_small by lia.
  reflexivity.
Qed.

Lemma arrow_down_cycle_witness :
  let p := {| visible := true; items := sample_items; selectedIndex := 1 |} in
  (visible p = true /\ 0 <= selectedIndex p < len (items p)) /\
  arrow_down_iter p 3 = Some (JInt 1).
Proof.
  split; [split; [reflexivity|unfold len; simpl; lia]|].
  exact (proj2 (arrow_down_cycle
                  {| visible := true; items := sample_items; selectedIndex := 1 |} 0
                  eq_refl ltac:(unfold len; simpl; lia))).
Defined.

(** ** sessionRPC and executeCommand *)

Lemma sessionRPC_unfold (api : option ApiSocket) (sessionId : jsstring)
  (method : option jsstring) (params : option rpc_params) (tr : list exec_effect) :
  sessionRPC api sessionId method params tr =
  match api with
  | None => (tr, Ok (RespObj (Some false) (Some (js "Not connected to session"))))
  | Some s =>
      (tr ++ [SocketCall sessionId method (params_or_empty params)],
       Ok (match socket_sessionRPC s sessionId method (params_or_empty params) with
           | inl r => r
           | inr e => RespObj (Some false) (Some (error_message e (js "RPC call failed")))
           end))
  end.
Proof.
  unfold sessionRPC, try_catch, bind, emit, ret, throw.
  destruct api as [s|]; [|reflexivity].
  change (match params with Some p => p | None => [] end) with (params_or_empty params).
  destruct (socket_sessionRPC s sessionId method (params_or_empty params)); reflexivity.
Qed.


Lemma passes_session_check_false sessionId command :
  passes_session_check sessionId command ->
  negb (js_not (requiresSession command)) && js_not_str sessionId = false.
Proof.
  intros [H|H].
  - destruct (requiresSession command) as [[|]|]; [congruence|reflexivity|reflexivity].
  - destruct sessionId; [congruence|].
    rewrite andb_false_r; reflexivity.
Qed.

Ltac finish_mid :=
  cbv beta iota delta [js_not]; rewrite <- ?app_assoc; cbn [app];
  match goal with
  | |- context [(_ ++ SetIsExecuting true :: ?rest, Ok tt)] =>
      exists (removelast rest); split; reflexivity
  end.

Lemma executeCommand_flag_shape
  (api : option ApiSocket) (sessionId : jsstring) (command : SlashCommand)
  (params : option rpc_params) (tr : list exec_effect) :
  passes_session_check sessionId command ->
  exists mid, forallb (fun e => negb (is_flag e)) mid = true /\
    executeCommand api sessionId command params tr =
      (tr ++ SetIsExecuting true :: mid ++ [SetIsExecuting false], Ok tt).
Proof.
  intros Hp; unfold executeCommand; rewrite (passes_session_check_false _ _ Hp).
  unfold try_finally, try_catch, bind, emit, ret.
  destruct (cmd_type command).
  all: rewrite ?sessionRPC_unfold.
  2: finish_mid.
  destruct api as [s|].
  - destruct (socket_sessionRPC s sessionId (rpcName command) (params_or_empty params))
      as [[sc m| |]|e]; unfold read_success, ret, throw; cbv beta iota.
    + destruct (js_not sc); finish_mid.
    + finish_mid.
    + finish_mid.
    + finish_mid.
  - unfold read_success, ret; cbv beta iota; finish_mid.
Qed.

(** X6: once past the session check, [executeCommand] sets [isExecuting]
    first and resets it last, whatever the command and the socket do, with
    no other change of the flag in between; it completes normally. *)
Theorem executeCommand_resets_isExecuting
  (api : option ApiSocket) (sessionId : jsstring) (command : SlashCommand)
  (params : option rpc_params) (tr : list exec_effect) :
  passes_session_check sessionId command ->
  exists mid, forallb (fun e => negb (is_flag e)) mid = true /\
    executeCommand api sessionId command params tr =
      (tr ++ SetIsExecuting true :: mid ++ [SetIsExecuting false], Ok tt).
Proof. apply executeCommand_flag_shape. Qed.

Lemma js_s1_nonempty : js "s1" <> [].
Proof. intro E; discriminate E. Qed.

Lemma some_false_not_true : Some false <> Some true.
Proof. intro E; discriminate E. Qed.

Lemma none_not_true : (None : option bool) <> Some true.
Proof. intro E; discriminate E. Qed.

Lemma executeCommand_resets_isExecuting_witness :
  passes_session_check (js "s1") model_command /\
  executeCommand (Some throwing_socket) (js "s1") model_command None [] =
    ([SetIsExecuting true;
      SocketCall (js "s1") (Some (js "setModel")) [];
      Alert (js "Error") (js "timeout");
      SetIsExecuting false], Ok tt).
Proof.
  split; [right; intro E; discriminate E|].
  destruct (executeCommand_resets_isExecuting (Some throwing_socket) (js "s1")
              model_command None [] (or_intror js_s1_nonempty))
    as (mid & _ & E).
  rewrite E; vm_compute in E; injection E as E.
  vm_compute; rewrite <- E; reflexivity.
Defined.

(** X7: a [message] command past the session check only toggles
    [isExecuting]: no socket call, no alert (the send is not implemented). *)
Theorem executeCommand_message_noop
  (api : option ApiSocket) (sessionId : jsstring) (command : SlashCommand)
  (params : option rpc_params) (tr : list exec_effect) :
  cmd_type command = Message -> passes_session_check sessionId command ->
  executeCommand api sessionId command params tr =
    (tr ++ [SetIsExecuting true; SetIsExecuting false], Ok tt).
Proof.
  intros Ht Hp; unfold executeCommand; rewrite (passes_session_check_false _ _ Hp), Ht.
  unfold try_finally, try_catch, bind, emit, ret.
  rewrite <- app_assoc; reflexivity.
Qed.

Lemma executeCommand_message_noop_witness :
  (cmd_type settings_command = Message /\ passes_session_check (js "") settings_command) /\
  socket_calls (fst (executeCommand (Some ok_socket) (js "") settings_command None [])) = 0%nat.
Proof.
  split; [split; [reflexivity|left; intro E; discriminate E]|].
  rewrite (executeCommand_message_noop (Some ok_socket) (js "") settings_command None []
             eq_refl (or_introl some_false_not_true)).
  reflexivity.
Defined.

(** X8: an [rpc] command past the session check whose socket call resolves
    to [{success: true, ...}] makes exactly one socket call, with the
    command's [rpcName] and [params || {}], and shows no alert. *)
Theorem executeCommand_rpc_success
  (s : ApiSocket) (sessionId : jsstring) (command : SlashCommand)
  (params : option rpc_params) (tr : list exec_effect) (m : option jsstring) :
  cmd_type command = Rpc -> passes_session_check sessionId command ->
  socket_sessionRPC s sessionId (rpcName command) (params_or_empty params) =
    inl (RespObj (Some true) m) ->
  executeCommand (Some s) sessionId command params tr =
    (tr ++ [SetIsExecuting true;
            SocketCall sessionId (rpcName command) (params_or_empty params);
            SetIsExecuting false], Ok tt).
Proof.
  intros Ht Hp Hs; unfold executeCommand; rewrite (passes_session_check_false _ _ Hp), Ht.
  unfold try_finally, try_catch, bind, emit, ret.
  rewrite sessionRPC_unfold, Hs; unfold read_success, ret; cbv beta iota delta [js_not].
  rewrite <- !app_assoc; reflexivity.
Qed.

Lemma executeCommand_rpc_success_witness :
  (cmd_type model_command = Rpc /\ passes_session_check (js "s1") model_command /\
   socket_sessionRPC ok_socket (js "s1") (rpcName model_command) (params_or_empty None) =
     inl (RespObj (Some true) None)) /\
  socket_calls (fst (executeCommand (Some ok_socket) (js "s1") model_command None [])) = 1%nat.
Proof.
  split; [split; [reflexivity|split; [right; intro E; discriminate E|reflexivity]]|].
  rewrite (executeCommand_rpc_success ok_socket (js "s1") model_command None [] None
             eq_refl (or_intror js_s1_nonempty) eq_refl).
  reflexivity.
Defined.

(** X9: an [rpc] command past the session check whose socket call resolves
    to an object without [success: true] (an explicit [false] or a missing
    field) makes one socket call and shows the error alert with the
    response's [message], or ["Command failed"] when that is absent or
    empty. *)
Theorem executeCommand_rpc_failure_response
  (s : ApiSocket) (sessionId : jsstring) (command : SlashCommand)
  (params : option rpc_params) (tr : list exec_effect)
  (sc : option bool) (m : option jsstring) :
  cmd_type command = Rpc -> passes_session_check sessionId command ->
  sc <> Some true ->
  socket_sessionRPC s sessionId (rpcName command) (params_or_empty params) =
    inl (RespObj sc m) ->
  executeCommand (Some s) sessionId command params tr =
    (tr ++ [SetIsExecuting true;
            SocketCall sessionId (rpcName command) (params_or_empty params);
            Alert (js "Error") (str_or m (js "Command failed"));
            SetIsExecuting false], Ok tt).
Proof.
  intros Ht Hp Hsc Hs; unfold executeCommand; rewrite (passes_session_check_false _ _ Hp), Ht.
  unfold try_finally, try_catch, bind, emit, ret.
  rewrite sessionRPC_unfold, Hs; unfold read_success, ret.
  replace (js_not sc) with true
    by (destruct sc as [[|]|]; [congruence|reflexivity|reflexivity]).
  cbv beta iota. rewrite <- !app_assoc; reflexivity.
Qed.

Lemma executeCommand_rpc_failure_response_witness :
  (cmd_type model_command = Rpc /\ passes_session_check (js "s1") model_command /\
   (None : option bool) <> Some true /\
   socket_sessionRPC failing_socket (js "s1") (rpcName model_command) (params_or_empty None) =
     inl (RespObj None (Some (js "")))) /\
  In (Alert (js "Error") (js "Command failed"))
     (fst (executeCommand (Some failing_socket) (js "s1") model_command None [])).
Proof.
  split; [split; [reflexivity|split; [right; intro E; discriminate E|
                                      split; [intro E; discriminate E|reflexivity]]]|].
  rewrite (executeCommand_rpc_failure_response failing_socket (js "s1") model_command None []
             None (Some (js "")) eq_refl (or_intror js_s1_nonempty)
             none_not_true eq_refl).
  simpl; auto.
Defined.

(** ** handleCommandSelect *)

Lemma executeCommand_ok api sessionId command params tr :
  snd (executeCommand api sessionId command params tr) = Ok tt.
Proof.
  destruct (negb (js_not (requiresSession command)) && js_not_str sessionId) eqn:Hchk.
  - unfold executeCommand; rewrite Hchk; reflexivity.
  - assert (Hp : passes_session_check sessionId command).
    { destruct (requiresSession command) as [[|]|] eqn:Hr;
        [|left; congruence|left; congruence].
      right; destruct sessionId; [discriminate Hchk|intro E; discriminate E]. }
    destruct (executeCommand_flag_shape api sessionId command params tr Hp)
      as (mid & _ & ->); reflexivity.
Qed.



(** X11: selecting any other command runs [executeCommand] (with no
    params) and then, whatever its outcome, clears the input and closes the
    palette and the autocomplete: a failed command also loses the typed
    text. *)
Theorem handleCommandSelect_clears_input
  (api : option ApiSocket) (sessionId : jsstring) (command : SlashCommand) :
  cmd_id command <> js "model" ->
  handleCommandSelect api sessionId command =
    (map Exec (fst (executeCommand api sessionId command None [])) ++
       [OnChangeText (js ""); SetShowCommandPalette false; SetShowAutocomplete false],
     Ok tt).
Proof.
  intros H; unfold handleCommandSelect.
  destruct (js_eqb (cmd_id command) (js "model")) eqn:E;
    [apply js_eqb_true in E; contradiction|].
  pose proof (executeCommand_ok api sessionId command None []) as Hok.
  destruct (executeCommand api sessionId command None []) as [tr r].
  simpl in Hok; subst r; reflexivity.
Qed.

Lemma handleCommandSelect_clears_input_witness :
  cmd_id settings_command <> js "model" /\
  handleCommandSelect (Some ok_socket) (js "") settings_command =
    ([Exec (SetIsExecuting true); Exec (SetIsExecuting false);
      OnChangeText (js ""); SetShowCommandPalette false; SetShowAutocomplete false], Ok tt).
Proof.
  assert (H : cmd_id settings_command <> js "model") by (intro E; discriminate E).
  split; [exact H|].
  rewrite (handleCommandSelect_clears_input (Some ok_socket) (js "") settings_command H).
  reflexivity.
Defined.

(** ** CommandAutocomplete fed by AgentInput *)

Lemma len_eqb_0 {A} (l : list A) : (len l =? 0) = match l with [] => true | _ => false end.
Proof. destruct l; unfold len; simpl; [reflexivity|lia]. Qed.

(** X12: the inline autocomplete, as AgentInput feeds it, shows rows exactly
    when the trimmed input starts with [/], is not [/] alone, and some
    trigger starts with it; the rows are then the first five such commands
    in registry order. *)
Theorem autocomplete_rows (registry : list SlashCommand) (value : jsstring)
  (rows : list SlashCommand) :
  let d := detectCommands registry value in
  CommandAutocomplete (showAutocomplete d) (filteredCommands d) = Some rows <->
  (trim value <> js "/" /\ startsWith (trim value) (js "/") = true /\
   rows = firstn 5 (filter (fun cmd => startsWith (trigger cmd) (trim value)) registry) /\
   rows <> []).
Proof.
  unfold detectCommands, CommandAutocomplete; simpl.
  destruct (js_eqb (trim value) (js "/")) eqn:E1.
  { apply js_eqb_true in E1; simpl; split; [discriminate|intros [H _]; contradiction]. }
  assert (N1 : trim value <> js "/") by (intro H; apply js_eqb_true in H; congruence).
  destruct (startsWith (trim value) (js "/")) eqn:E2; simpl.
  2: { split; [discriminate|intros (_ & H & _); discriminate H]. }
  set (m := filter (fun cmd => startsWith (trigger cmd) (trim value)) registry).
  rewrite len_eqb_0.
  destruct m as [|c m'] eqn:Em; simpl.
  - split; [discriminate|intros (_ & _ & -> & H); contradiction].
  - split.
    + intros H; injection H as <-; repeat split; auto; discriminate.
    + intros (_ & _ & -> & _); reflexivity.
Qed.

Lemma autocomplete_rows_witness :
  CommandAutocomplete (showAutocomplete (detectCommands SLASH_COMMANDS (js "/m")))
    (filteredCommands (detectCommands SLASH_COMMANDS (js "/m"))) = Some [model_command].
Proof.
  apply (proj2 (autocomplete_rows SLASH_COMMANDS (js "/m") [model_command])).
  split; [intro E; discriminate E|split; [reflexivity|split; [reflexivity|]]].
  intro E; discriminate E.
Defined.

(** ** Palette search *)

Lemma includes_nil s : includes s [] = true.
Proof. destruct s; reflexivity. Qed.

Lemma includes_refl s : includes s s = true.
Proof.
  unfold includes; destruct s as [|c s]; [reflexivity|].
  apply orb_true_iff; left; apply startsWith_app; exists []; rewrite app_nil_r; reflexivity.
Qed.

(** X13: an empty search query lists the whole registry, in order. *)
Theorem handleSearchChange_empty_query
  (toLowerCase : jsstring -> jsstring) (registry : list SlashCommand) :
  toLowerCase [] = [] ->
  handleSearchChange toLowerCase registry (js "") = registry.
Proof.
  intros Hl; unfold handleSearchChange.
  change (js "") with (@nil Z); rewrite Hl.
  induction registry as [|c r IH]; simpl; [reflexivity|].
  rewrite !includes_nil; simpl; rewrite IH; reflexivity.
Qed.

Lemma handleSearchChange_empty_query_witness :
  ascii_toLowerCase [] = [] /\
  handleSearchChange ascii_toLowerCase SLASH_COMMANDS (js "") = SLASH_COMMANDS.
Proof.
  split; [reflexivity|].
  apply handleSearchChange_empty_query; reflexivity.
Defined.

(** X14: searching for a registry command's exact trigger always lists that
    command (whatever the case mapping). *)
Theorem handleSearchChange_finds_trigger
  (toLowerCase : jsstring -> jsstring) (registry : list SlashCommand)
  (cmd : SlashCommand) :
  In cmd registry -> In cmd (handleSearchChange toLowerCase registry (trigger cmd)).
Proof.
  intros H; unfold handleSearchChange; apply filter_In; split; [exact H|].
  rewrite includes_refl, orb_true_r; reflexivity.
Qed.

Lemma handleSearchChange_finds_trigger_witness :
  In model_command SLASH_COMMANDS /\
  In model_command (handleSearchChange ascii_toLowerCase SLASH_COMMANDS (js "/model")).
Proof.
  split; [left; reflexivity|].
  apply (handleSearchChange_finds_trigger ascii_toLowerCase SLASH_COMMANDS model_command).
  left; reflexivity.
Defined.

(** ** ModelSelectorModal *)

(** X15: the model selector never marks a model as selected, whatever
    [selectedModelId] is passed: it compares each [model.id] with
    [props.selectedModel], which its props do not have. *)
Theorem renderModelSelectorModal_none_selected (p : ModelSelectorModalProps)
  (rows : list (Model * bool)) :
  renderModelSelectorModal p = ModalRows rows ->
  forallb (fun r => negb (snd r)) rows = true.
Proof.
  unfold renderModelSelectorModal.
  destruct (msm_visible p); [|discriminate].
  destruct (negb (js_not (isLoading p))); [discriminate|].
  destruct (len (models p) =? 0); [discriminate|].
  intros H; injection H as <-.
  induction (models p) as [|m ms IH]; simpl; [reflexivity|exact IH].
Qed.

Lemma renderModelSelectorModal_none_selected_witness :
  exists rows, renderModelSelectorModal sample_modal_props = ModalRows rows /\
               forallb (fun r => negb (snd r)) rows = true.
Proof.
  eexists; split; [reflexivity|].
  apply (renderModelSelectorModal_none_selected sample_modal_props); reflexivity.
Defined.
